(** * GlogApp python-backend: the items CRUD service of [app.py]

    A shallow embedding of [python-backend/app.py]: the credential
    resolver [get_db_pool], the request-scoped connection [get_db], the
    five item handlers and the route table, followed by the properties
    of the service's specification.

    Python [int] is [Z], [str] is [string], [Optional[str]] is
    [option string], a [dict] is a [gmap].  The handlers run in a small
    state-and-exception monad over the state of the database server and
    of the connection checked out for the request. *)

From stdpp Require Import gmap strings list fin_maps pretty.
From Stdlib Require Import ZArith Lia Sorted Ascii.

Local Open Scope string_scope.
Local Open Scope list_scope.
Local Open Scope Z_scope.

(** ** Data model *)

(** [class ItemBase(BaseModel)] / [class ItemCreate(ItemBase)]:
    [name: str], [description: Optional[str] = None]. *)
Record ItemCreate := mkItemCreate {
  name : string;
  description : option string
}.

(** [class Item(ItemBase)]: adds [id: int].  A row decoded with
    [dict_row] has exactly these three labels. *)
Record Item := mkItem {
  item_id : Z;
  item_name : string;
  item_description : option string
}.

#[global] Instance ItemCreate_eq_dec : EqDecision ItemCreate.
Proof. solve_decision. Defined.
#[global] Instance Item_eq_dec : EqDecision Item.
Proof. solve_decision. Defined.

(** ** The relational store

    The table [items(id integer primary key generated, name text not
    null, description text null)]: rows keyed by their primary key, and
    the sequence the engine draws generated ids from. *)
Record Database := mkDatabase {
  items : gmap Z ItemCreate;
  next_id : Z
}.

Definition row_of (k : Z) (r : ItemCreate) : Item :=
  mkItem k (name r) (description r).

Definition row_pair (kr : Z * ItemCreate) : Item := row_of kr.1 kr.2.

(** The five statements of [app.py], with their bound parameters. *)
Inductive stmt :=
  | SelectAll
  | SelectById (i : Z)
  | InsertReturning (n : string) (d : option string)
  | UpdateReturning (n : string) (d : option string) (i : Z)
  | DeleteById (i : Z).

(** What the engine hands back to the cursor. *)
Record dbresult := mkResult {
  res_db : Database;
  res_rows : list Item;
  res_rowcount : Z
}.

(** The refusal of the engine that the model covers: an [INSERT] whose
    primary key is taken.  The driver's own refusals (text it cannot
    send) and the engine's other failures are outside it. *)
Inductive dberror :=
  | UniqueViolation (k : Z).

(** Modelled from the spec: the relational engine is an external
    collaborator of the service (only its statements are in [app.py]);
    this is the meaning of the five statements on the [items] table of
    the specification's schema.  [INSERT] draws the id from the sequence
    and is refused when the primary key is already taken; [UPDATE]
    overwrites every field of the matching row; [RETURNING] yields the
    rows written; the row count is the number of rows selected or
    written.  The statements are taken on text the driver accepts; what
    else can fail in the engine or on the way to it is not part of this
    model. *)
Definition run_stmt (q : stmt) (d : Database) : dberror + dbresult :=
  match q with
  | SelectAll =>
      let rows := row_pair <$> map_to_list (items d) in
      inr (mkResult d rows (Z.of_nat (length rows)))
  | SelectById i =>
      match items d !! i with
      | Some r => inr (mkResult d [row_of i r] 1)
      | None => inr (mkResult d [] 0)
      end
  | InsertReturning n ds =>
      let k := next_id d in
      match items d !! k with
      | Some _ => inl (UniqueViolation k)
      | None =>
          let r := mkItemCreate n ds in
          inr (mkResult (mkDatabase (<[k := r]> (items d)) (k + 1))
                        [row_of k r] 1)
      end
  | UpdateReturning n ds i =>
      match items d !! i with
      | Some _ =>
          let r := mkItemCreate n ds in
          inr (mkResult (mkDatabase (<[i := r]> (items d)) (next_id d))
                        [row_of i r] 1)
      | None => inr (mkResult d [] 0)
      end
  | DeleteById i =>
      match items d !! i with
      | Some _ =>
          inr (mkResult (mkDatabase (delete i (items d)) (next_id d)) [] 1)
      | None => inr (mkResult d [] 0)
      end
  end.

(** Modelled from the spec: the ids are generated by the store, from a
    sequence that is not part of any transaction.  The value an
    [INSERT] draws is spent whether the statement is accepted or
    refused, and whether its transaction is committed or not. *)
Definition draw (q : stmt) (d : Database) : Database :=
  match q with
  | InsertReturning _ _ => mkDatabase (items d) (next_id d + 1)
  | _ => d
  end.

(** ** The server and the connection of a request *)

Inductive event :=
  | EvAcquire
  | EvExecute (q : stmt)
  | EvCommit
  | EvRelease.

#[global] Instance stmt_eq_dec : EqDecision stmt.
Proof. solve_decision. Defined.
#[global] Instance event_eq_dec : EqDecision event.
Proof. solve_decision. Defined.

(** [committed] is what every new transaction sees; [view] is what the
    transaction of the checked-out connection sees (its own writes
    included); [cur_rows] and [cur_rowcount] are the cursor's pending
    rows and [rowcount]; [trace] records the calls made on the pool and
    the connection, oldest first. *)
Record State := mkState {
  committed : Database;
  view : Database;
  cur_rows : list Item;
  cur_rowcount : Z;
  trace : list event
}.

Definition log (e : event) (s : State) : list event := trace s ++ [e].

(** Exceptions a handler can leave with. *)
Inductive exn :=
  | HTTPException (status_code : Z) (detail : string)
  | DatabaseError (e : dberror).

Inductive result (A : Type) :=
  | Ok (a : A)
  | Raise (e : exn).
Arguments Ok {A} a.
Arguments Raise {A} e.

Definition M (A : Type) : Type := State → result A * State.

#[global] Instance M_ret : MRet M := λ A a s, (Ok a, s).

#[global] Instance M_bind : MBind M := λ A B k m s,
  match m s with
  | (Ok a, s') => k a s'
  | (Raise e, s') => (Raise e, s')
  end.

Definition raise {A} (e : exn) : M A := λ s, (Raise e, s).

Definition returned {A} (r : result A) : bool :=
  match r with
  | Ok _ => true
  | Raise _ => false
  end.

(** [async with cm: body]: the exit of the context manager runs on
    every exit path and is told whether the body returned or raised. *)
Definition async_with {A} (body : M A) (aexit : bool → State → State) : M A :=
  λ s, let '(r, s') := body s in (r, aexit (returned r) s').

(** [pool.connection()] entered: the connection starts a transaction on
    the committed data, with a fresh cursor. *)
Definition acquire : M unit :=
  λ s, (Ok (), mkState (committed s) (committed s) [] (-1) (log EvAcquire s)).

(** [pool.connection()] left: the pool ends the transaction the
    connection has open, committing it when the block returned and
    rolling it back when the block raised, and takes the connection
    back.  This is the pool's own doing, not a call of the handler, so
    only the release is recorded. *)
Definition release (block_returned : bool) (s : State) : State :=
  let d := if block_returned then view s else committed s in
  mkState d d [] (-1) (log EvRelease s).

(** [cur.execute(query, params)]: the statement runs on the
    transaction's view; a statement the engine refuses raises.  The
    sequence value the statement draws is spent at once, outside the
    transaction. *)
Definition execute (q : stmt) : M unit :=
  λ s, match run_stmt q (view s) with
       | inr r =>
           (Ok (), mkState (draw q (committed s)) (res_db r) (res_rows r)
                           (res_rowcount r) (log (EvExecute q) s))
       | inl e =>
           (Raise (DatabaseError e),
            mkState (draw q (committed s)) (draw q (view s)) [] (-1)
                    (log (EvExecute q) s))
       end.

(** [cur.fetchall()]. *)
Definition fetchall : M (list Item) :=
  λ s, (Ok (cur_rows s),
        mkState (committed s) (view s) [] (cur_rowcount s) (trace s)).

(** [cur.fetchone()]: the next row, or [None]. *)
Definition fetchone : M (option Item) :=
  λ s, match cur_rows s with
       | [] => (Ok None, s)
       | r :: rest =>
           (Ok (Some r),
            mkState (committed s) (view s) rest (cur_rowcount s) (trace s))
       end.

(** [cur.rowcount]. *)
Definition rowcount : M Z := λ s, (Ok (cur_rowcount s), s).

(** [db.commit()]. *)
Definition commit : M unit :=
  λ s, (Ok (), mkState (view s) (view s) (cur_rows s) (cur_rowcount s)
                       (log EvCommit s)).

(** [async with get_db() as db: async with db.cursor() as cur: body]. *)
Definition get_db {A} (body : M A) : M A :=
  acquire;; async_with body release.

(** ** The handlers *)

Definition not_found : exn := HTTPException 404 "Item not found".

(** [GET /] *)
Definition root : list (string * string) :=
  [("message", "Welcome to the Serverless API")].

(** [GET /items/] *)
Definition read_items : M (list Item) :=
  rows ← get_db (execute SelectAll;; rows ← fetchall; mret rows);
  mret rows.

(** [GET /items/{item_id}] *)
Definition read_item (item_id : Z) : M Item :=
  row ← get_db (execute (SelectById item_id);;
                row ← fetchone; mret row);
  match row with
  | None => raise not_found
  | Some r => mret r
  end.

(** [POST /items/] *)
Definition create_item (item : ItemCreate) : M (option Item) :=
  row ← get_db (execute (InsertReturning (name item) (description item));;
                row ← fetchone;
                commit;;
                mret row);
  mret row.

(** [PUT /items/{item_id}] *)
Definition update_item (item_id : Z) (item : ItemCreate) : M Item :=
  row ← get_db (execute (UpdateReturning (name item) (description item)
                                         item_id);;
                row ← fetchone;
                commit;;
                mret row);
  match row with
  | None => raise not_found
  | Some r => mret r
  end.

(** [DELETE /items/{item_id}] *)
Definition delete_item (item_id : Z) : M (list (string * string)) :=
  row_count ← get_db (execute (DeleteById item_id);;
                      row_count ← rowcount;
                      commit;;
                      mret row_count);
  if decide (row_count = 0) then raise not_found
  else mret [("message", "Item deleted successfully")].

(** The server at start-up: an empty table, no call made yet. *)
Definition empty_db : Database := mkDatabase ∅ 1.
Definition boot : State := mkState empty_db empty_db [] (-1) [].


(** The primary keys in use were all drawn from the sequence.  It holds
    at start-up and every statement keeps it ([run_stmt_wf]). *)
Definition db_wf (d : Database) : Prop :=
  map_Forall (λ k _, k < next_id d) (items d).

#[global] Instance db_wf_dec d : Decision (db_wf d).
Proof. unfold db_wf. apply _. Defined.

(** ** Credential resolution *)

(** The values of the decoded secret ([json.loads]); only scalars are
    rendered into the connection string. *)
Inductive jvalue :=
  | JNull
  | JBool (b : bool)
  | JInt (z : Z)
  | JString (s : string).

(** [str(v)], as the f-string renders a value. *)
Definition py_str (v : jvalue) : string :=
  match v with
  | JNull => "None"
  | JBool true => "True"
  | JBool false => "False"
  | JInt z => pretty z
  | JString s => s
  end.

(** Truth value of [os.environ.get(k)]: set and not empty. *)
Definition truthy (v : option string) : bool :=
  match v with
  | Some s => negb (String.eqb s "")
  | None => false
  end.

(** [AsyncConnectionPool(conninfo=..., min_size=1, max_size=10)]. *)
Record AsyncConnectionPool := mkPool {
  conninfo : string;
  min_size : Z;
  max_size : Z
}.

Inductive startup_error :=
  | SecretError
  | KeyError (k : string).

(** [d[k]] on the decoded secret. *)
Definition subscript (d : gmap string jvalue) (k : string)
  : startup_error + jvalue :=
  match d !! k with
  | Some v => inr v
  | None => inl (KeyError k)
  end.

#[global] Instance startup_bind : MBind (sum startup_error) := λ A B k m,
  match m with
  | inr a => k a
  | inl e => inl e
  end.

Definition format_conninfo (host dbname user password port : string) : string :=
  "host=" +:+ host +:+ " dbname=" +:+ dbname +:+ " user=" +:+ user +:+
  " password=" +:+ password +:+ " port=" +:+ port.

Section Credentials.

(** The replies of the secrets service during this start-up, followed
    by [json.loads]: for the region the client is made with and the
    secret asked for ([None] when [DB_SECRET_NAME] is unset), the
    decoded object, or [None] when the call or the decoding fails.
    Whatever else the client consults (its own credentials and
    settings) is held fixed in these replies. *)
Variable get_secret_value :
  string → option string → option (gmap string jvalue).

Definition get_db_pool (environ : gmap string string)
  : startup_error + AsyncConnectionPool :=
  if truthy (environ !! "AWS_EXECUTION_ENV") then
    let secret_name := environ !! "DB_SECRET_NAME" in
    let region := default "us-east-1" (environ !! "AWS_REGION") in
    match get_secret_value region secret_name with
    | None => inl SecretError
    | Some db_credentials =>
        host ← subscript db_credentials "host";
        dbname ← subscript db_credentials "dbname";
        username ← subscript db_credentials "username";
        password ← subscript db_credentials "password";
        let port := default (JInt 5432) (db_credentials !! "port") in
        inr (mkPool (format_conninfo (py_str host) (py_str dbname)
                       (py_str username) (py_str password) (py_str port))
                    1 10)
    end
  else
    let host := default "localhost" (environ !! "DB_HOST") in
    let database := default "postgres" (environ !! "DB_NAME") in
    let user := default "postgres" (environ !! "DB_USER") in
    let password := default "postgres" (environ !! "DB_PASSWORD") in
    let port := default "5432" (environ !! "DB_PORT") in
    inr (mkPool (format_conninfo host database user password port) 1 10).

End Credentials.

(** ** The routing layer *)

Inductive method := GET | POST | PUT | DELETE.

(** The operation a request is dispatched to; a path parameter is still
    the raw text of its path segment. *)
Inductive endpoint :=
  | ERoot
  | EReadItems
  | EReadItem (raw_id : string)
  | ECreateItem
  | EUpdateItem (raw_id : string)
  | EDeleteItem (raw_id : string).

(** Modelled from the spec: the routing layer is the framework's, not
    code of [app.py]; this is the specification's map of verbs and
    paths to operations, as the [@app.get/post/put/delete] decorators
    declare it, on the path split at its slashes ([/items/7] is [["items"; "7"]], [/items/]
    is [["items"; ""]], [/] is [[""]]).  A path parameter matches one
    non-empty segment. *)
Definition route (m : method) (path : list string) : option endpoint :=
  match m, path with
  | GET, [""] => Some ERoot
  | GET, ["items"; seg] =>
      if decide (seg = "") then Some EReadItems else Some (EReadItem seg)
  | POST, ["items"; ""] => Some ECreateItem
  | PUT, ["items"; seg] =>
      if decide (seg = "") then None else Some (EUpdateItem seg)
  | DELETE, ["items"; seg] =>
      if decide (seg = "") then None else Some (EDeleteItem seg)
  | _, _ => None
  end.

Inductive payload :=
  | JsonItem (i : Item)
  | JsonItems (l : list Item)
  | JsonObject (kv : list (string * string))
  | JsonDetail (detail : string)
  | ValidationErrors
  | InternalServerError.

Record response := mkResponse {
  status : Z;
  content : payload
}.

Definition unprocessable : response := mkResponse 422 ValidationErrors.

(** How an exception leaving a handler is answered. *)
Definition respond_exn (e : exn) : response :=
  match e with
  | HTTPException code detail => mkResponse code (JsonDetail detail)
  | DatabaseError _ => mkResponse 500 InternalServerError
  end.

Definition respond {A} (enc : A → response) (r : result A * State)
  : response * State :=
  match r with
  | (Ok a, s) => (enc a, s)
  | (Raise e, s) => (respond_exn e, s)
  end.

(** [response_model=Item] on a handler that may return [None]. *)
Definition encode_row (row : option Item) : response :=
  match row with
  | Some i => mkResponse 200 (JsonItem i)
  | None => mkResponse 500 InternalServerError
  end.

Section Routing.

(** The routing layer's coercions, from the annotations [item_id: int]
    and [name: str]: of a path segment to an integer and of a JSON
    value to text. *)
Variable coerce_int : string → option Z.
Variable coerce_str : jvalue → option string.

(** Modelled from the spec: the routing layer decodes a request body
    into the structure [ItemBase] declares, "requiring name (text) and
    optional description (text)"; the validation itself is the
    framework's, not code of [app.py].  [name] is required,
    [description] defaults to [None] and may be null. *)
Definition decode_ItemCreate (body : option (gmap string jvalue))
  : option ItemCreate :=
  obj ← body;
  n ← obj !! "name" ≫= coerce_str;
  match obj !! "description" with
  | None | Some JNull => Some (mkItemCreate n None)
  | Some v => d ← coerce_str v; Some (mkItemCreate n (Some d))
  end.

(** Modelled from the spec: how the routing layer enters a handler.
    It coerces the path parameter and decodes the body first and
    answers 422 itself when either fails ("via the routing layer's own
    validation, not custom logic"); otherwise it calls the handler of
    [app.py] and encodes what the handler returns or raises. *)
Definition serve (e : endpoint) (body : option (gmap string jvalue))
  : State → response * State :=
  λ s,
  match e with
  | ERoot => (mkResponse 200 (JsonObject root), s)
  | EReadItems =>
      respond (λ rows, mkResponse 200 (JsonItems rows)) (read_items s)
  | EReadItem raw =>
      match coerce_int raw with
      | None => (unprocessable, s)
      | Some i =>
          respond (λ r, mkResponse 200 (JsonItem r)) (read_item i s)
      end
  | ECreateItem =>
      match decode_ItemCreate body with
      | None => (unprocessable, s)
      | Some item => respond encode_row (create_item item s)
      end
  | EUpdateItem raw =>
      match coerce_int raw, decode_ItemCreate body with
      | Some i, Some item =>
          respond (λ r, mkResponse 200 (JsonItem r)) (update_item i item s)
      | _, _ => (unprocessable, s)
      end
  | EDeleteItem raw =>
      match coerce_int raw with
      | None => (unprocessable, s)
      | Some i =>
          respond (λ kv, mkResponse 200 (JsonObject kv)) (delete_item i s)
      end
  end.

Definition dispatch (m : method) (path : list string)
    (body : option (gmap string jvalue)) (s : State)
  : option (response * State) :=
  e ← route m path; Some (serve e body s).

End Routing.

(** Sample coercions, to run the model on concrete requests.  They are
    not the framework's: [decimal_int] reads a signed decimal, blanks
    around it and a fraction of zeros allowed, and [only_str] takes text
    as it is and nothing else; the framework's coercions may accept
    more.  The theorems are stated for any coercions. *)
Definition digit_of (c : Ascii.ascii) : option Z :=
  let n := Z.of_N (Ascii.N_of_ascii c) in
  if decide (48 ≤ n ≤ 57) then Some (n - 48) else None.

Fixpoint digits_of (acc : Z) (l : list Ascii.ascii) : option Z :=
  match l with
  | [] => Some acc
  | c :: l' => d ← digit_of c; digits_of (10 * acc + d) l'
  end.

Definition is_blank (c : Ascii.ascii) : bool :=
  let n := Z.of_N (Ascii.N_of_ascii c) in
  bool_decide (n = 32 ∨ 9 ≤ n ≤ 13).

Fixpoint skip_blanks (l : list Ascii.ascii) : list Ascii.ascii :=
  match l with
  | c :: l' => if is_blank c then skip_blanks l' else l
  | [] => []
  end.

(** The digits before the point, and those after it when there is one. *)
Fixpoint split_point (l : list Ascii.ascii)
  : list Ascii.ascii * option (list Ascii.ascii) :=
  match l with
  | [] => ([], None)
  | c :: l' =>
      if Ascii.eqb c "."%char then ([], Some l')
      else let '(whole, frac) := split_point l' in (c :: whole, frac)
  end.

Definition zero_fraction (frac : option (list Ascii.ascii)) : bool :=
  match frac with
  | None => true
  | Some [] => false
  | Some f => forallb (λ c, Ascii.eqb c "0"%char) f
  end.

Definition decimal_int (s : string) : option Z :=
  let l := rev (skip_blanks (rev (skip_blanks (String.list_ascii_of_string s)))) in
  let '(sign, digits) :=
    match l with
    | c :: l' =>
        if Ascii.eqb c "-"%char then (-1, l')
        else if Ascii.eqb c "+"%char then (1, l')
        else (1, l)
    | [] => (1, l)
    end in
  let '(whole, frac) := split_point digits in
  match whole with
  | [] => None
  | _ => if zero_fraction frac then n ← digits_of 0 whole; Some (sign * n)
         else None
  end.

Definition only_str (v : jvalue) : option string :=
  match v with
  | JString s => Some s
  | _ => None
  end.

(** ** States reached by the handlers *)

(** The state between two requests: no transaction open, the cursor
    gone. *)
Definition settled (d : Database) (tr : list event) : State :=
  mkState d d [] (-1) tr.

Definition inserted (d : Database) (item : ItemCreate) : Database :=
  mkDatabase (<[next_id d := mkItemCreate (name item) (description item)]>
                (items d))
             (next_id d + 1).

Definition updated (d : Database) (i : Z) (item : ItemCreate) : Database :=
  mkDatabase (<[i := mkItemCreate (name item) (description item)]> (items d))
             (next_id d).

Definition deleted (d : Database) (i : Z) : Database :=
  mkDatabase (delete i (items d)) (next_id d).

(** ** Calls made on the connection *)

(** The calls a handler makes on the pool and the connection when run
    from [s]. *)
Definition issued {A} (m : M A) (s : State) : list event :=
  drop (length (trace s)) (trace (m s).2).

Definition commits (tr : list event) : nat :=
  length (filter (λ e, e = EvCommit) tr).

(** ** Histories of calls *)

Inductive call :=
  | CallList
  | CallGet (i : Z)
  | CallCreate (item : ItemCreate)
  | CallUpdate (i : Z) (item : ItemCreate)
  | CallDelete (i : Z).

(** What the caller of an operation gets back. *)
Inductive outcome :=
  | Listed (rows : list Item)
  | Got (r : Item)
  | Created (r : option Item)
  | Updated (r : Item)
  | Deleted (msg : list (string * string))
  | Failed (e : exn).

Definition observe {A} (f : A → outcome) (r : result A * State)
  : outcome * State :=
  match r with
  | (Ok a, s) => (f a, s)
  | (Raise e, s) => (Failed e, s)
  end.

Definition perform (c : call) (s : State) : outcome * State :=
  match c with
  | CallList => observe Listed (read_items s)
  | CallGet i => observe Got (read_item i s)
  | CallCreate item => observe Created (create_item item s)
  | CallUpdate i item => observe Updated (update_item i item s)
  | CallDelete i => observe Deleted (delete_item i s)
  end.

(** A sequence of calls served one after the other, with what each
    returned. *)
Fixpoint replay (cs : list call) (s : State)
  : list (call * outcome) * State :=
  match cs with
  | [] => ([], s)
  | c :: cs' =>
      let '(o, s1) := perform c s in
      let '(h, s2) := replay cs' s1 in
      ((c, o) :: h, s2)
  end.

(** Following the specification's words: the Items created and not
    deleted, as the callers saw them.  A successful Create adds the Item
    it returned, a successful Update overwrites the Item of that id, a
    successful Delete removes the id. *)
Definition note (live : gmap Z ItemCreate) (co : call * outcome)
  : gmap Z ItemCreate :=
  match co with
  | (CallCreate _, Created (Some r)) =>
      <[item_id r := mkItemCreate (item_name r) (item_description r)]> live
  | (CallUpdate _ _, Updated r) =>
      <[item_id r := mkItemCreate (item_name r) (item_description r)]> live
  | (CallDelete i, Deleted _) => delete i live
  | _ => live
  end.

Definition created_not_deleted (h : list (call * outcome))
  : gmap Z ItemCreate :=
  foldl note ∅ h.

(** The ids that some Create of the history returned. *)
Definition note_created (ids : gset Z) (co : call * outcome) : gset Z :=
  match co with
  | (CallCreate _, Created (Some r)) => {[item_id r]} ∪ ids
  | _ => ids
  end.

Definition created_ids (h : list (call * outcome)) : gset Z :=
  foldl note_created ∅ h.

(** ** Sample data *)

(** A server holding one item, for the examples. *)
Definition one_item : State :=
  (create_item (mkItemCreate "Test Item" (Some "This is a test")) boot).2.

Definition marker : string := "AWS_EXECUTION_ENV".

Definition sample_secret : gmap string jvalue :=
  {[ "host" := JString "db.internal"; "dbname" := JString "glog";
     "username" := JString "app"; "password" := JString "s3cret" ]}.

(** ** Observations on histories and traces *)



(** The calls that only read. *)
Definition is_read (c : call) : bool :=
  match c with
  | CallList | CallGet _ => true
  | _ => false
  end.

Definition is_acquire (e : event) : bool :=
  match e with EvAcquire => true | _ => false end.

Definition is_release (e : event) : bool :=
  match e with EvRelease => true | _ => false end.

Definition is_commit (e : event) : bool :=
  match e with EvCommit => true | _ => false end.

Definition count_events (p : event → bool) (tr : list event) : nat :=
  length (filter (λ e, p e = true) tr).

(** The statement a call executes. *)
Definition stmt_of (c : call) : stmt :=
  match c with
  | CallList => SelectAll
  | CallGet i => SelectById i
  | CallCreate item => InsertReturning (name item) (description item)
  | CallUpdate i item => UpdateReturning (name item) (description item) i
  | CallDelete i => DeleteById i
  end.

(** The statements executed along a trace, oldest first. *)
Definition executed (tr : list event) : list stmt :=
  omap (λ e, match e with EvExecute q => Some q | _ => None end) tr.

(** The outcome of a Create refused for a taken id. *)
Definition refused (o : outcome) : bool :=
  match o with
  | Failed (DatabaseError (UniqueViolation _)) => true
  | _ => false
  end.


(** The fields [get_db_pool] subscripts the secret with, in the order
    the f-string evaluates them. *)
Definition required_fields : list string :=
  ["host"; "dbname"; "username"; "password"].

(** The first of [ks] that the secret does not have. *)
Definition first_missing (secret : gmap string jvalue) (ks : list string)
  : option string :=
  find (λ k, match secret !! k with None => true | Some _ => false end) ks.

(** ** Proof steps shared by the handlers *)

Ltac run_handler :=
  unfold get_db, async_with, returned, acquire, execute, fetchone, fetchall, rowcount,
    commit, release, raise, log, settled, mbind, mret, M_bind, M_ret;
  cbn [run_stmt draw committed view cur_rows cur_rowcount trace
       res_db res_rows res_rowcount fst snd].

Ltac flatten_trace := rewrite <- ?app_assoc; cbn [app].

(** * Properties *)

(** ** What one call of each handler does *)

Lemma read_items_run s :
  read_items s =
  (Ok (row_pair <$> map_to_list (items (committed s))),
   settled (committed s)
     (trace s ++ [EvAcquire; EvExecute SelectAll; EvRelease])).
Proof. unfold read_items. run_handler. flatten_trace. reflexivity. Qed.

Lemma read_item_run s i :
  read_item i s =
  (match items (committed s) !! i with
   | Some r => Ok (row_of i r)
   | None => Raise not_found
   end,
   settled (committed s)
     (trace s ++ [EvAcquire; EvExecute (SelectById i); EvRelease])).
Proof.
  unfold read_item. run_handler.
  destruct (items (committed s) !! i); run_handler; flatten_trace;
    reflexivity.
Qed.

Lemma create_item_run s item :
  create_item item s =
  let d := committed s in
  let q := InsertReturning (name item) (description item) in
  match items d !! next_id d with
  | None =>
      (Ok (Some (mkItem (next_id d) (name item) (description item))),
       settled (inserted d item)
         (trace s ++ [EvAcquire; EvExecute q; EvCommit; EvRelease]))
  | Some _ =>
      (Raise (DatabaseError (UniqueViolation (next_id d))),
       settled (draw q d) (trace s ++ [EvAcquire; EvExecute q; EvRelease]))
  end.
Proof.
  unfold create_item. run_handler.
  destruct (items (committed s) !! next_id (committed s)); run_handler;
    flatten_trace; reflexivity.
Qed.

Lemma update_item_run s i item :
  update_item i item s =
  let d := committed s in
  let tr := (trace s ++ [EvAcquire;
                         EvExecute (UpdateReturning (name item)
                                      (description item) i);
                         EvCommit; EvRelease]) in
  match items d !! i with
  | Some _ =>
      (Ok (mkItem i (name item) (description item)),
       settled (updated d i item) tr)
  | None => (Raise not_found, settled d tr)
  end.
Proof.
  unfold update_item. run_handler.
  destruct (items (committed s) !! i); run_handler; flatten_trace;
    [reflexivity|].
  destruct (committed s); reflexivity.
Qed.

Lemma delete_item_run s i :
  delete_item i s =
  let d := committed s in
  let tr := (trace s ++ [EvAcquire; EvExecute (DeleteById i);
                         EvCommit; EvRelease]) in
  match items d !! i with
  | Some _ =>
      (Ok [("message", "Item deleted successfully")],
       settled (deleted d i) tr)
  | None => (Raise not_found, settled d tr)
  end.
Proof.
  unfold delete_item. run_handler.
  destruct (items (committed s) !! i); run_handler; flatten_trace;
    [reflexivity|].
  destruct (committed s); reflexivity.
Qed.

(** ** The primary-key invariant *)

Lemma db_wf_empty : db_wf empty_db.
Proof. apply map_Forall_empty. Qed.

Lemma db_wf_fresh d : db_wf d → items d !! next_id d = None.
Proof.
  intros Hwf. destruct (items d !! next_id d) as [r|] eqn:Hk; [|done].
  apply Hwf in Hk. simpl in Hk. lia.
Qed.

Lemma run_stmt_wf q d r : db_wf d → run_stmt q d = inr r → db_wf (res_db r).
Proof.
  intros Hwf. unfold db_wf in *.
  destruct q as [|i|n ds|n ds i|i]; simpl.
  - intros [= <-]. done.
  - destruct (items d !! i); intros [= <-]; done.
  - destruct (items d !! next_id d) eqn:Hk; [done|]. intros [= <-]. simpl.
    apply map_Forall_insert; [done|]. split; [lia|].
    eapply map_Forall_impl; [exact Hwf|]. simpl. intros. lia.
  - destruct (items d !! i) eqn:Hi; intros [= <-]; [|done]. simpl.
    apply map_Forall_insert_2; [|done]. exact (Hwf _ _ Hi).
  - destruct (items d !! i); intros [= <-]; [|done]. simpl.
    by apply map_Forall_delete.
Qed.

Lemma inserted_wf d item : db_wf d → db_wf (inserted d item).
Proof.
  intros Hwf.
  apply (run_stmt_wf (InsertReturning (name item) (description item)) d
           (mkResult (inserted d item)
              [row_of (next_id d) (mkItemCreate (name item) (description item))]
              1)); [done|].
  simpl. by rewrite db_wf_fresh.
Qed.

Lemma updated_wf d i item : is_Some (items d !! i) → db_wf d → db_wf (updated d i item).
Proof.
  intros [r Hr] Hwf. unfold db_wf, updated in *. simpl.
  apply map_Forall_insert_2; [|done]. exact (Hwf _ _ Hr).
Qed.

Lemma deleted_wf d i : db_wf d → db_wf (deleted d i).
Proof. intros Hwf. unfold db_wf, deleted in *. simpl. by apply map_Forall_delete. Qed.

(** ** Create, Get, Update, Delete *)

(** C1: on a store whose keys were all drawn from the sequence, Create
    of any (name, description) returns an Item carrying that name and
    description, and Get on the returned id then returns that same Item
    (same id, name and description). *)
Theorem create_then_get (s : State) (item : ItemCreate) :
  db_wf (committed s) →
  ∃ (created : Item) (s1 : State),
    create_item item s = (Ok (Some created), s1) ∧
    item_name created = name item ∧
    item_description created = description item ∧
    (read_item (item_id created) s1).1 = Ok created.
Proof.
  intros Hwf. rewrite create_item_run. cbn zeta.
  rewrite (db_wf_fresh _ Hwf).
  eexists _, _. split; [reflexivity|]. cbn [item_name item_description item_id].
  split_and!; [done..|].
  rewrite read_item_run. unfold settled, inserted. simpl.
  by rewrite lookup_insert_eq.
Qed.

Lemma create_then_get_witness :
  ∃ (created : Item) (s1 : State),
    create_item (mkItemCreate "Test Item" (Some "This is a test")) boot
      = (Ok (Some created), s1) ∧
    item_name created = "Test Item" ∧
    item_description created = Some "This is a test" ∧
    (read_item (item_id created) s1).1 = Ok created.
Proof.
  apply (create_then_get boot
           (mkItemCreate "Test Item" (Some "This is a test"))).
  apply db_wf_empty.
Defined.

(** C3: Update on an id that has no row raises NotFound (404) and
    leaves the items table as it was: the committed store after the
    call is the store before it, and no transaction is left open with
    other contents. *)
Theorem update_absent_not_found (s : State) (i : Z) (item : ItemCreate) :
  items (committed s) !! i = None →
  ∃ s1 : State,
    update_item i item s = (Raise (HTTPException 404 "Item not found"), s1) ∧
    committed s1 = committed s ∧
    view s1 = committed s.
Proof.
  intros Hi. rewrite update_item_run. cbn zeta. rewrite Hi.
  eexists. split; [reflexivity|]. done.
Qed.

Lemma update_absent_not_found_witness :
  ∃ s1 : State,
    update_item 7 (mkItemCreate "n" None) boot
      = (Raise (HTTPException 404 "Item not found"), s1) ∧
    committed s1 = committed boot ∧
    view s1 = committed boot.
Proof.
  apply (update_absent_not_found boot 7 (mkItemCreate "n" None)).
  reflexivity.
Defined.

(** C4: Delete on an id with no row raises NotFound (404); Delete on an
    id that has a row returns {"message": "Item deleted successfully"},
    after which Get on that id raises NotFound and a second Delete of
    that id raises NotFound too. *)
Theorem delete_then_gone (s : State) (i : Z) :
  (items (committed s) !! i = None →
   (delete_item i s).1 = Raise (HTTPException 404 "Item not found")) ∧
  (is_Some (items (committed s) !! i) →
   ∃ s1 : State,
     delete_item i s = (Ok [("message", "Item deleted successfully")], s1) ∧
     (read_item i s1).1 = Raise (HTTPException 404 "Item not found") ∧
     (delete_item i s1).1 = Raise (HTTPException 404 "Item not found")).
Proof.
  split.
  - intros Hi. rewrite delete_item_run. cbn zeta. by rewrite Hi.
  - intros [r Hr]. rewrite delete_item_run. cbn zeta. rewrite Hr.
    eexists. split; [reflexivity|].
    rewrite read_item_run, delete_item_run. cbn zeta.
    unfold settled, deleted. simpl. by rewrite lookup_delete_eq.
Qed.

Lemma delete_then_gone_witness :
  (delete_item 5 boot).1 = Raise (HTTPException 404 "Item not found") ∧
  ∃ s1 : State,
    delete_item 1 one_item
      = (Ok [("message", "Item deleted successfully")], s1) ∧
    (read_item 1 s1).1 = Raise (HTTPException 404 "Item not found") ∧
    (delete_item 1 s1).1 = Raise (HTTPException 404 "Item not found").
Proof.
  split.
  - apply (proj1 (delete_then_gone boot 5)). reflexivity.
  - apply (proj2 (delete_then_gone one_item 1)).
    eexists. vm_compute. reflexivity.
Defined.

(** C10: Delete on an id with no row executes its statement, commits,
    releases the connection and only then raises NotFound; the commit
    writes nothing, so the items table after the failed Delete is the
    table before it. *)
Theorem delete_absent_commits (s : State) (i : Z) :
  items (committed s) !! i = None →
  ∃ s1 : State,
    delete_item i s = (Raise (HTTPException 404 "Item not found"), s1) ∧
    trace s1 = trace s ++ [EvAcquire; EvExecute (DeleteById i);
                           EvCommit; EvRelease] ∧
    committed s1 = committed s.
Proof.
  intros Hi. rewrite delete_item_run. cbn zeta. rewrite Hi.
  eexists. split; [reflexivity|]. done.
Qed.

Lemma delete_absent_commits_witness :
  ∃ s1 : State,
    delete_item 1 boot = (Raise (HTTPException 404 "Item not found"), s1) ∧
    trace s1 = trace boot ++ [EvAcquire; EvExecute (DeleteById 1);
                              EvCommit; EvRelease] ∧
    committed s1 = committed boot.
Proof. apply (delete_absent_commits boot 1). reflexivity. Defined.

(** ** Commits *)

Lemma issued_app {A} (m : M A) s r d tr :
  m s = (r, settled d (trace s ++ tr)) → issued m s = tr.
Proof. intros Hm. unfold issued. rewrite Hm. simpl. by rewrite drop_app_length. Qed.

(** C6: Create (on a store whose keys were all drawn from the sequence),
    Update and Delete each make exactly one commit call, placed after
    the execution of their one statement and before the connection is
    released; List and Get make no commit call. *)
Theorem commit_once_per_write (s : State) (i : Z) (item : ItemCreate) :
  db_wf (committed s) →
  (issued (create_item item) s
     = [EvAcquire;
        EvExecute (InsertReturning (name item) (description item));
        EvCommit; EvRelease] ∧
   issued (update_item i item) s
     = [EvAcquire;
        EvExecute (UpdateReturning (name item) (description item) i);
        EvCommit; EvRelease] ∧
   issued (delete_item i) s
     = [EvAcquire; EvExecute (DeleteById i); EvCommit; EvRelease]) ∧
  (commits (issued (create_item item) s) = 1%nat ∧
   commits (issued (update_item i item) s) = 1%nat ∧
   commits (issued (delete_item i) s) = 1%nat) ∧
  (commits (issued read_items s) = 0%nat ∧
   commits (issued (read_item i) s) = 0%nat).
Proof.
  intros Hwf.
  assert (issued (create_item item) s
     = [EvAcquire;
        EvExecute (InsertReturning (name item) (description item));
        EvCommit; EvRelease]) as Hc.
  { eapply issued_app. rewrite create_item_run. cbn zeta.
    rewrite (db_wf_fresh _ Hwf). reflexivity. }
  assert (issued (update_item i item) s
     = [EvAcquire;
        EvExecute (UpdateReturning (name item) (description item) i);
        EvCommit; EvRelease]) as Hu.
  { destruct (items (committed s) !! i) eqn:Hi.
    - eapply issued_app. rewrite update_item_run. cbn zeta. rewrite Hi.
      reflexivity.
    - eapply issued_app. rewrite update_item_run. cbn zeta. rewrite Hi.
      reflexivity. }
  assert (issued (delete_item i) s
     = [EvAcquire; EvExecute (DeleteById i); EvCommit; EvRelease]) as Hd.
  { destruct (items (committed s) !! i) eqn:Hi.
    - eapply issued_app. rewrite delete_item_run. cbn zeta. rewrite Hi.
      reflexivity.
    - eapply issued_app. rewrite delete_item_run. cbn zeta. rewrite Hi.
      reflexivity. }
  rewrite Hc, Hu, Hd.
  rewrite (issued_app read_items s _ _ _ (read_items_run s)).
  rewrite (issued_app (read_item i) s _ _ _ (read_item_run s i)).
  split_and!; reflexivity.
Qed.

Lemma commit_once_per_write_witness :
  let item := mkItemCreate "n" None in
  (issued (create_item item) one_item
     = [EvAcquire; EvExecute (InsertReturning "n" None);
        EvCommit; EvRelease] ∧
   issued (update_item 1 item) one_item
     = [EvAcquire; EvExecute (UpdateReturning "n" None 1);
        EvCommit; EvRelease] ∧
   issued (delete_item 1) one_item
     = [EvAcquire; EvExecute (DeleteById 1); EvCommit; EvRelease]) ∧
  (commits (issued (create_item item) one_item) = 1%nat ∧
   commits (issued (update_item 1 item) one_item) = 1%nat ∧
   commits (issued (delete_item 1) one_item) = 1%nat) ∧
  (commits (issued read_items one_item) = 0%nat ∧
   commits (issued (read_item 1) one_item) = 0%nat).
Proof.
  apply (commit_once_per_write one_item 1 (mkItemCreate "n" None)).
  apply (@bool_decide_unpack _ (db_wf_dec _)). vm_compute. exact I.
Defined.

Lemma perform_note c s live :
  db_wf (committed s) →
  items (committed s) = live →
  let '(o, s1) := perform c s in
  db_wf (committed s1) ∧ items (committed s1) = note live (c, o).
Proof.
  intros Hwf <-. destruct c as [|i|item|i item|i]; unfold perform.
  - rewrite read_items_run. simpl. done.
  - rewrite read_item_run.
    destruct (items (committed s) !! i); simpl; done.
  - rewrite create_item_run. cbn zeta. rewrite (db_wf_fresh _ Hwf). simpl.
    split; [by apply inserted_wf|done].
  - rewrite update_item_run. cbn zeta.
    destruct (items (committed s) !! i) eqn:Hi; simpl; [|done].
    split; [|done]. apply updated_wf; [by eexists|done].
  - rewrite delete_item_run. cbn zeta.
    destruct (items (committed s) !! i) eqn:Hi; simpl; [|done].
    split; [|done]. by apply deleted_wf.
Qed.

Lemma replay_note cs : ∀ s live,
  db_wf (committed s) →
  items (committed s) = live →
  db_wf (committed (replay cs s).2) ∧
  items (committed (replay cs s).2) = foldl note live (replay cs s).1.
Proof.
  induction cs as [|c cs IH]; intros s live Hwf Hlive; simpl; [done|].
  pose proof (perform_note c s live Hwf Hlive) as Hstep.
  destruct (perform c s) as [o s1]. destruct Hstep as [Hwf1 Hlive1].
  specialize (IH s1 _ Hwf1 Hlive1).
  destruct (replay cs s1) as [h s2]. simpl in *. done.
Qed.

Lemma replay_boot cs :
  db_wf (committed (replay cs boot).2) ∧
  items (committed (replay cs boot).2)
    = created_not_deleted (replay cs boot).1.
Proof. apply replay_note; [apply db_wf_empty|done]. Qed.

Lemma perform_created c s (ids : gset Z) :
  db_wf (committed s) →
  dom (items (committed s)) ⊆ ids →
  dom (items (committed (perform c s).2)) ⊆ note_created ids (c, (perform c s).1).
Proof.
  intros Hwf Hdom. destruct c as [|i|item|i item|i]; unfold perform.
  - rewrite read_items_run. simpl. done.
  - rewrite read_item_run.
    destruct (items (committed s) !! i); simpl; done.
  - rewrite create_item_run. cbn zeta. rewrite (db_wf_fresh _ Hwf). simpl.
    rewrite dom_insert. by apply union_mono_l.
  - rewrite update_item_run. cbn zeta.
    destruct (items (committed s) !! i) eqn:Hi; simpl; [|done].
    rewrite dom_insert. apply union_least; [|done].
    apply singleton_subseteq_l, Hdom. by eapply elem_of_dom_2.
  - rewrite delete_item_run. cbn zeta.
    destruct (items (committed s) !! i) eqn:Hi; simpl; [|done].
    rewrite dom_delete. by apply subseteq_difference_l.
Qed.

Lemma replay_created cs : ∀ s (ids : gset Z),
  db_wf (committed s) →
  dom (items (committed s)) ⊆ ids →
  dom (items (committed (replay cs s).2))
    ⊆ foldl note_created ids (replay cs s).1.
Proof.
  induction cs as [|c cs IH]; intros s ids Hwf Hdom; simpl; [done|].
  pose proof (perform_created c s ids Hwf Hdom) as Hstep.
  pose proof (perform_note c s _ Hwf eq_refl) as Hnote.
  destruct (perform c s) as [o s1]. destruct Hnote as [Hwf1 _].
  specialize (IH s1 _ Hwf1 Hstep).
  destruct (replay cs s1) as [h s2]. simpl in *. done.
Qed.

Lemma never_created_absent cs i :
  i ∉ created_ids (replay cs boot).1 →
  items (committed (replay cs boot).2) !! i = None.
Proof.
  intros Hi. apply not_elem_of_dom. intros Hd. apply Hi.
  eapply (replay_created cs boot ∅); [apply db_wf_empty|done|done].
Qed.

Lemma elem_of_rows (m : gmap Z ItemCreate) (r : Item) :
  r ∈ row_pair <$> map_to_list m ↔
  m !! item_id r = Some (mkItemCreate (item_name r) (item_description r)).
Proof.
  rewrite list_elem_of_fmap. split.
  - intros [[k x] [-> Hkx]]. apply elem_of_map_to_list in Hkx.
    destruct x. done.
  - intros Hr. eexists (item_id r, _). split; [|by apply elem_of_map_to_list].
    destruct r. done.
Qed.

Lemma rows_ids (m : gmap Z ItemCreate) :
  item_id <$> (row_pair <$> map_to_list m) = (map_to_list m).*1.
Proof. rewrite <- list_fmap_compose. apply list_fmap_ext. by intros ? []. Qed.

(** C2: Get on an id that has no row in the items table raises the
    HTTP exception with status 404 and detail "Item not found", which is
    answered as status 404 with body {"detail": "Item not found"}; in
    particular, after any sequence of calls from start-up, Get on an id
    that no Create of the sequence returned raises it. *)
Theorem get_absent_not_found :
  (∀ (s : State) (i : Z),
     items (committed s) !! i = None →
     (read_item i s).1 = Raise (HTTPException 404 "Item not found") ∧
     (respond (λ r, mkResponse 200 (JsonItem r)) (read_item i s)).1
       = mkResponse 404 (JsonDetail "Item not found")) ∧
  (∀ (cs : list call) (i : Z),
     i ∉ created_ids (replay cs boot).1 →
     (read_item i (replay cs boot).2).1
       = Raise (HTTPException 404 "Item not found")).
Proof.
  assert (∀ (s : State) (i : Z),
     items (committed s) !! i = None →
     (read_item i s).1 = Raise (HTTPException 404 "Item not found") ∧
     (respond (λ r, mkResponse 200 (JsonItem r)) (read_item i s)).1
       = mkResponse 404 (JsonDetail "Item not found")) as Habsent.
  { intros s i Hi. rewrite read_item_run, Hi. done. }
  split; [exact Habsent|].
  intros cs i Hi. by apply Habsent, never_created_absent.
Qed.

Lemma get_absent_not_found_witness :
  ((read_item 99999 one_item).1
     = Raise (HTTPException 404 "Item not found") ∧
   (respond (λ r, mkResponse 200 (JsonItem r)) (read_item 99999 one_item)).1
     = mkResponse 404 (JsonDetail "Item not found")) ∧
  (read_item 2 (replay [CallCreate (mkItemCreate "a" None)] boot).2).1
    = Raise (HTTPException 404 "Item not found").
Proof.
  split.
  - apply (proj1 get_absent_not_found one_item 99999). reflexivity.
  - apply (proj2 get_absent_not_found [CallCreate (mkItemCreate "a" None)] 2).
    apply (@bool_decide_unpack _ (not_dec (gset_elem_of_dec _ _))).
    vm_compute. exact I.
Defined.

(** C5: in every state of the database, List returns the rows of the
    items table, each one once (no two listed Items even share an id),
    and the empty list when the table is empty; after any sequence of
    calls from start-up, the listed Items are exactly those created and
    not deleted since, in their current form. *)
Theorem list_created_not_deleted :
  (∀ s : State, ∃ rows : list Item,
     (read_items s).1 = Ok rows ∧
     NoDup rows ∧ NoDup (item_id <$> rows) ∧
     (∀ r, r ∈ rows ↔
           items (committed s) !! item_id r
             = Some (mkItemCreate (item_name r) (item_description r))) ∧
     (items (committed s) = ∅ → rows = [])) ∧
  (∀ cs : list call, ∃ rows : list Item,
     (read_items (replay cs boot).2).1 = Ok rows ∧
     NoDup (item_id <$> rows) ∧
     (∀ r, r ∈ rows ↔
           created_not_deleted (replay cs boot).1 !! item_id r
             = Some (mkItemCreate (item_name r) (item_description r)))).
Proof.
  split.
  - intros s. rewrite read_items_run. eexists. split; [reflexivity|].
    assert (NoDup (item_id <$> (row_pair <$> map_to_list (items (committed s)))))
      as Hids by (rewrite rows_ids; apply NoDup_fst_map_to_list).
    split_and!.
    + by eapply NoDup_fmap_1.
    + done.
    + apply elem_of_rows.
    + intros ->. by rewrite map_to_list_empty.
  - intros cs. rewrite read_items_run. eexists. split; [reflexivity|].
    destruct (replay_boot cs) as [_ <-]. split.
    + rewrite rows_ids. apply NoDup_fst_map_to_list.
    + apply elem_of_rows.
Qed.

(** ** Credential resolution *)

Lemma truthy_false (v : option string) :
  truthy v = false ↔ v = None ∨ v = Some "".
Proof.
  destruct v as [x|]; simpl.
  - rewrite negb_false_iff, String.eqb_eq. split; [intros ->; by right|].
    intros [|[= ->]]; done.
  - split; [by left|done].
Qed.

Lemma truthy_true (v : option string) :
  truthy v = true ↔ ∃ x, v = Some x ∧ x ≠ "".
Proof.
  destruct v as [x|]; simpl.
  - rewrite negb_true_iff, String.eqb_neq. split; [by eexists|].
    by intros (? & [= <-] & ?).
  - split; [done|]. by intros (? & ? & ?).
Qed.

(** C7, as amended: the pool's connection string is a function of the
    environment.  When the serverless marker is unset or empty it is
    built from DB_HOST, DB_NAME, DB_USER, DB_PASSWORD and DB_PORT, with
    the defaults localhost, postgres, postgres, postgres and 5432; when
    the marker is set to a non-empty value it is built from the host,
    dbname, username and password fields of the secret fetched under
    DB_SECRET_NAME in AWS_REGION (default us-east-1), with the port
    5432 when the secret has no port field.  The pool is sized 1 to 10
    either way. *)
Theorem credentials_by_environment
    (get_secret_value : string → option string → option (gmap string jvalue))
    (environ : gmap string string) :
  (environ !! marker = None ∨ environ !! marker = Some "" →
   get_db_pool get_secret_value environ =
   inr (mkPool
          (format_conninfo
             (default "localhost" (environ !! "DB_HOST"))
             (default "postgres" (environ !! "DB_NAME"))
             (default "postgres" (environ !! "DB_USER"))
             (default "postgres" (environ !! "DB_PASSWORD"))
             (default "5432" (environ !! "DB_PORT")))
          1 10)) ∧
  (∀ (v : string) (secret : gmap string jvalue) (h n u p : jvalue),
     environ !! marker = Some v → v ≠ "" →
     get_secret_value (default "us-east-1" (environ !! "AWS_REGION"))
                      (environ !! "DB_SECRET_NAME") = Some secret →
     secret !! "host" = Some h →
     secret !! "dbname" = Some n →
     secret !! "username" = Some u →
     secret !! "password" = Some p →
     get_db_pool get_secret_value environ =
     inr (mkPool
            (format_conninfo (py_str h) (py_str n) (py_str u) (py_str p)
               (match secret !! "port" with
                | Some port => py_str port
                | None => "5432"
                end))
            1 10)).
Proof.
  split.
  - intros Hm%truthy_false. unfold get_db_pool, marker in *. by rewrite Hm.
  - intros v secret h n u p Hv Hne Hsec Hh Hn Hu Hp.
    assert (truthy (environ !! marker) = true) as Hm
      by (apply truthy_true; eauto).
    unfold get_db_pool, marker in *. rewrite Hm. cbn zeta. rewrite Hsec.
    unfold subscript. rewrite Hh, Hn, Hu, Hp. simpl.
    destruct (secret !! "port"); reflexivity.
Qed.

Lemma credentials_by_environment_witness :
  get_db_pool (λ _ _, None) {[ "DB_HOST" := "10.0.0.5" ]} =
    inr (mkPool
      "host=10.0.0.5 dbname=postgres user=postgres password=postgres port=5432"
      1 10) ∧
  get_db_pool (λ _ _, Some sample_secret)
              {[ marker := "AWS_Lambda_python3.9" ]} =
    inr (mkPool
      "host=db.internal dbname=glog user=app password=s3cret port=5432"
      1 10).
Proof.
  split.
  - etrans.
    + apply (proj1 (credentials_by_environment
                      (λ _ _, None) {[ "DB_HOST" := "10.0.0.5" ]})).
      left. reflexivity.
    + vm_compute. reflexivity.
  - etrans.
    + apply (proj2 (credentials_by_environment
                      (λ _ _, Some sample_secret)
                      {[ marker := "AWS_Lambda_python3.9" ]})
               "AWS_Lambda_python3.9" sample_secret
               (JString "db.internal") (JString "glog")
               (JString "app") (JString "s3cret"));
        (reflexivity || (intros [=])).
    + vm_compute. reflexivity.
Defined.

(** C7 as stated fails: with the marker set to the empty string the
    secret is not consulted and the connection string comes from the
    environment's defaults. *)
Lemma marker_set_but_empty :
  ¬ (∀ (get_secret_value : string → option string
                           → option (gmap string jvalue))
       (environ : gmap string string) (secret : gmap string jvalue)
       (h n u p : jvalue),
       is_Some (environ !! marker) →
       get_secret_value (default "us-east-1" (environ !! "AWS_REGION"))
                        (environ !! "DB_SECRET_NAME") = Some secret →
       secret !! "host" = Some h →
       secret !! "dbname" = Some n →
       secret !! "username" = Some u →
       secret !! "password" = Some p →
       get_db_pool get_secret_value environ =
       inr (mkPool
              (format_conninfo (py_str h) (py_str n) (py_str u) (py_str p)
                 (match secret !! "port" with
                  | Some port => py_str port
                  | None => "5432"
                  end))
              1 10)).
Proof.
  intros Hclaim.
  specialize (Hclaim (λ _ _, Some sample_secret) {[ marker := "" ]}
                sample_secret (JString "db.internal") (JString "glog")
                (JString "app") (JString "s3cret")).
  discriminate Hclaim; (reflexivity || (eexists; reflexivity)).
Qed.

(** ** The scenarios of [test_app.py] *)

Example test_read_main :
  dispatch decimal_int only_str GET [""] None boot
    = Some (mkResponse 200
              (JsonObject [("message", "Welcome to the Serverless API")]),
            boot).
Proof. reflexivity. Qed.

Example test_create_item :
  (λ r, (status r, content r))
    <$> (fst <$> dispatch decimal_int only_str POST ["items"; ""]
                   (Some {[ "name" := JString "Test Item";
                            "description" := JString "This is a test" ]})
                   boot)
    = Some (200, JsonItem (mkItem 1 "Test Item" (Some "This is a test"))).
Proof. vm_compute. reflexivity. Qed.

(** ** Request bodies *)

(** C9, as amended: a Create request whose body carries a valid name
    and omits the description field succeeds (on a store whose keys were
    all drawn from the sequence), and so does such an Update request on
    an id that has a row; the Item returned and the row stored have a
    null description. *)
Theorem omitted_description_null
    (coerce_int : string → option Z) (coerce_str : jvalue → option string)
    (obj : gmap string jvalue) (v : jvalue) (n : string) (s : State) :
  obj !! "name" = Some v →
  coerce_str v = Some n →
  obj !! "description" = None →
  db_wf (committed s) →
  (∃ (i : Z) (s1 : State),
     serve coerce_int coerce_str ECreateItem (Some obj) s
       = (mkResponse 200 (JsonItem (mkItem i n None)), s1) ∧
     items (committed s1) !! i = Some (mkItemCreate n None)) ∧
  (∀ (raw : string) (i : Z),
     coerce_int raw = Some i →
     is_Some (items (committed s) !! i) →
     ∃ s1 : State,
       serve coerce_int coerce_str (EUpdateItem raw) (Some obj) s
         = (mkResponse 200 (JsonItem (mkItem i n None)), s1) ∧
       items (committed s1) !! i = Some (mkItemCreate n None)).
Proof.
  intros Hname Hstr Hdesc Hwf.
  assert (decode_ItemCreate coerce_str (Some obj) = Some (mkItemCreate n None))
    as Hdec.
  { unfold decode_ItemCreate. simpl. rewrite Hname. simpl. rewrite Hstr.
    simpl. by rewrite Hdesc. }
  split.
  - unfold serve. rewrite Hdec, create_item_run. cbn zeta.
    rewrite (db_wf_fresh _ Hwf). simpl.
    eexists _, _. split; [reflexivity|]. simpl. by rewrite lookup_insert_eq.
  - intros raw i Hraw [r Hr]. unfold serve.
    rewrite Hraw, Hdec, update_item_run. cbn zeta. rewrite Hr. simpl.
    eexists. split; [reflexivity|]. simpl. by rewrite lookup_insert_eq.
Qed.

Lemma omitted_description_null_witness :
  let obj : gmap string jvalue := {[ "name" := JString "Test Item" ]} in
  (∃ (i : Z) (s1 : State),
     serve decimal_int only_str ECreateItem (Some obj) one_item
       = (mkResponse 200 (JsonItem (mkItem i "Test Item" None)), s1) ∧
     items (committed s1) !! i = Some (mkItemCreate "Test Item" None)) ∧
  (∀ (raw : string) (i : Z),
     decimal_int raw = Some i →
     is_Some (items (committed one_item) !! i) →
     ∃ s1 : State,
       serve decimal_int only_str (EUpdateItem raw) (Some obj) one_item
         = (mkResponse 200 (JsonItem (mkItem i "Test Item" None)), s1) ∧
       items (committed s1) !! i = Some (mkItemCreate "Test Item" None)).
Proof.
  apply (omitted_description_null decimal_int only_str
           {[ "name" := JString "Test Item" ]} (JString "Test Item")
           "Test Item" one_item).
  - reflexivity.
  - reflexivity.
  - reflexivity.
  - apply (@bool_decide_unpack _ (db_wf_dec _)). vm_compute. exact I.
Defined.

(** C9 as stated fails for Update: a body that omits the description
    does not make an Update of an id without a row succeed. *)
Lemma update_without_description_fails :
  ¬ (∀ (raw : string) (obj : gmap string jvalue) (s : State),
       obj !! "description" = None →
       ∃ (r : Item) (s1 : State),
         serve decimal_int only_str (EUpdateItem raw) (Some obj) s
           = (mkResponse 200 (JsonItem r), s1) ∧
         item_description r = None).
Proof.
  intros Hclaim.
  destruct (Hclaim "1" {[ "name" := JString "n" ]} boot)
    as (r & s1 & Hserve & _); [reflexivity|].
  vm_compute in Hserve. discriminate Hserve.
Qed.

(** * Further properties of the handlers *)

(** ** The statement that fails *)



(** ** Failed calls and reads change nothing *)

(** X3: a call that ends in an exception, of any of the five handlers
    and from any state, leaves the rows of the table as they were; when
    the exception is the handler's own 404, the whole committed store,
    the sequence included, is as it was. *)
Theorem failed_call_keeps_rows (c : call) (s : State) (e : exn) :
  (perform c s).1 = Failed e →
  items (committed (perform c s).2) = items (committed s) ∧
  (e = not_found → committed (perform c s).2 = committed s).
Proof.
  destruct c as [|i|item|i item|i]; unfold perform.
  - rewrite read_items_run. done.
  - rewrite read_item_run. by destruct (items (committed s) !! i).
  - rewrite create_item_run. cbn zeta.
    destruct (items (committed s) !! next_id (committed s)); [|done].
    simpl. intros [= <-]. done.
  - rewrite update_item_run. cbn zeta.
    by destruct (items (committed s) !! i).
  - rewrite delete_item_run. cbn zeta.
    by destruct (items (committed s) !! i).
Qed.

Lemma failed_call_keeps_rows_witness :
  items (committed (perform (CallUpdate 9 (mkItemCreate "n" None)) one_item).2)
    = items (committed one_item) ∧
  (not_found = not_found →
   committed (perform (CallUpdate 9 (mkItemCreate "n" None)) one_item).2
     = committed one_item).
Proof.
  apply (failed_call_keeps_rows
           (CallUpdate 9 (mkItemCreate "n" None)) one_item not_found).
  vm_compute. reflexivity.
Defined.

Lemma perform_read_committed c s :
  is_read c = true → committed (perform c s).2 = committed s.
Proof.
  destruct c as [|i| | |]; try discriminate; intros _; unfold perform.
  - by rewrite read_items_run.
  - rewrite read_item_run. by destruct (items (committed s) !! i).
Qed.

(** X4: List and Get are safe: any sequence of them, from any state,
    leaves the committed store as it was. *)
Theorem reads_change_nothing (cs : list call) (s : State) :
  forallb is_read cs = true →
  committed (replay cs s).2 = committed s.
Proof.
  revert s. induction cs as [|c cs IH]; intros s Hcs; [done|].
  simpl in Hcs. apply andb_prop in Hcs as [Hc Hcs]. simpl.
  pose proof (perform_read_committed c s Hc) as Hstep.
  destruct (perform c s) as [o s1]. specialize (IH s1 Hcs).
  destruct (replay cs s1) as [h s2]. simpl in *. congruence.
Qed.

Lemma reads_change_nothing_witness :
  committed (replay [CallList; CallGet 1; CallGet 5; CallList] one_item).2
    = committed one_item.
Proof.
  apply (reads_change_nothing [CallList; CallGet 1; CallGet 5; CallList]
           one_item).
  reflexivity.
Defined.

(** ** Histories from a well-formed store *)

Lemma perform_wf c s :
  db_wf (committed s) →
  db_wf (committed (perform c s).2) ∧ refused (perform c s).1 = false.
Proof.
  intros Hwf. destruct c as [|i|item|i item|i]; unfold perform.
  - by rewrite read_items_run.
  - rewrite read_item_run. by destruct (items (committed s) !! i).
  - rewrite create_item_run. cbn zeta. rewrite (db_wf_fresh _ Hwf). simpl.
    split; [by apply inserted_wf|done].
  - rewrite update_item_run. cbn zeta.
    destruct (items (committed s) !! i) eqn:Hi; simpl; [|done].
    split; [|done]. apply updated_wf; [by eexists|done].
  - rewrite delete_item_run. cbn zeta.
    destruct (items (committed s) !! i) eqn:Hi; simpl; [|done].
    split; [|done]. by apply deleted_wf.
Qed.

(** X5: from a store whose keys were all drawn from the sequence, any
    sequence of calls keeps the store so, and no Create of it is
    refused for a taken id. *)
Theorem history_keeps_invariant (cs : list call) (s : State) :
  db_wf (committed s) →
  db_wf (committed (replay cs s).2) ∧
  Forall (λ co, refused co.2 = false) (replay cs s).1.
Proof.
  revert s. induction cs as [|c cs IH]; intros s Hwf; simpl; [done|].
  destruct (perform_wf c s Hwf) as [Hwf1 Hclean].
  destruct (perform c s) as [o s1]. simpl in *.
  destruct (IH s1 Hwf1) as [Hwf2 Hall].
  destruct (replay cs s1) as [h s2]. simpl in *.
  split; [done|]. by constructor.
Qed.

Lemma history_keeps_invariant_witness :
  let cs := [CallCreate (mkItemCreate "a" None); CallDelete 1;
             CallCreate (mkItemCreate "b" None); CallGet 1] in
  db_wf (committed (replay cs boot).2) ∧
  Forall (λ co, refused co.2 = false) (replay cs boot).1.
Proof.
  apply (history_keeps_invariant
           [CallCreate (mkItemCreate "a" None); CallDelete 1;
            CallCreate (mkItemCreate "b" None); CallGet 1] boot).
  apply (@bool_decide_unpack _ (db_wf_dec _)). vm_compute. exact I.
Defined.






(** ** What a write does to the other rows *)

Lemma read_item_result s j :
  (read_item j s).1 =
  match items (committed s) !! j with
  | Some r => Ok (row_of j r)
  | None => Raise not_found
  end.
Proof. by rewrite read_item_run. Qed.

Lemma read_items_result s :
  (read_items s).1 = Ok (row_pair <$> map_to_list (items (committed s))).
Proof. by rewrite read_items_run. Qed.

(** X7: on a store whose keys were all drawn from the sequence, Create
    adds one row and touches no other: Get on any other id answers as
    before, and List afterwards is List before plus the created Item, up
    to order. *)
Theorem create_adds_one_row (s : State) (item : ItemCreate) :
  db_wf (committed s) →
  ∃ (created : Item) (s1 : State) (before after : list Item),
    create_item item s = (Ok (Some created), s1) ∧
    (∀ j : Z, j ≠ item_id created → (read_item j s1).1 = (read_item j s).1) ∧
    (read_items s).1 = Ok before ∧
    (read_items s1).1 = Ok after ∧
    after ≡ₚ created :: before.
Proof.
  intros Hwf. pose proof (db_wf_fresh _ Hwf) as Hfresh.
  rewrite create_item_run. cbn zeta. rewrite Hfresh.
  eexists _, _, _, _. split; [reflexivity|]. cbn [item_id]. split_and!.
  - intros j Hj. rewrite !read_item_result. unfold settled, inserted. simpl.
    by rewrite lookup_insert_ne.
  - apply read_items_result.
  - apply read_items_result.
  - unfold settled, inserted. simpl.
    rewrite map_to_list_insert by done. by destruct item.
Qed.

Lemma create_adds_one_row_witness :
  ∃ (created : Item) (s1 : State) (before after : list Item),
    create_item (mkItemCreate "b" None) one_item = (Ok (Some created), s1) ∧
    (∀ j : Z, j ≠ item_id created
              → (read_item j s1).1 = (read_item j one_item).1) ∧
    (read_items one_item).1 = Ok before ∧
    (read_items s1).1 = Ok after ∧
    after ≡ₚ created :: before.
Proof.
  apply (create_adds_one_row one_item (mkItemCreate "b" None)).
  apply (@bool_decide_unpack _ (db_wf_dec _)). vm_compute. exact I.
Defined.

(** X8: Update of an id that has a row returns the Item with that id
    and the new name and description, and Get on the id then returns it;
    every other id answers as before, the sequence is not advanced, List
    differs only in that one Item, and repeating the same Update changes
    nothing more. *)
Theorem update_overwrites_one_row
    (s : State) (i : Z) (item : ItemCreate) (old : ItemCreate) :
  items (committed s) !! i = Some old →
  ∃ (s1 : State) (before after rest : list Item),
    update_item i item s
      = (Ok (mkItem i (name item) (description item)), s1) ∧
    (read_item i s1).1 = Ok (mkItem i (name item) (description item)) ∧
    (∀ j : Z, j ≠ i → (read_item j s1).1 = (read_item j s).1) ∧
    next_id (committed s1) = next_id (committed s) ∧
    (read_items s).1 = Ok before ∧
    (read_items s1).1 = Ok after ∧
    before ≡ₚ row_of i old :: rest ∧
    after ≡ₚ mkItem i (name item) (description item) :: rest ∧
    committed (update_item i item s1).2 = committed s1.
Proof.
  intros Hold. rewrite update_item_run. cbn zeta. rewrite Hold.
  eexists _, _, _, (row_pair <$> map_to_list (delete i (items (committed s)))).
  split; [reflexivity|]. split_and!.
  - rewrite read_item_result. unfold settled, updated. simpl.
    by rewrite lookup_insert_eq.
  - intros j Hj. rewrite !read_item_result. unfold settled, updated. simpl.
    by rewrite lookup_insert_ne.
  - done.
  - apply read_items_result.
  - apply read_items_result.
  - by rewrite <- (map_to_list_delete _ _ _ Hold).
  - unfold settled, updated. simpl.
    rewrite <- insert_delete_eq.
    rewrite map_to_list_insert by apply lookup_delete_eq. done.
  - rewrite update_item_run. cbn zeta. unfold settled, updated. simpl.
    rewrite lookup_insert_eq. simpl. by rewrite insert_insert_eq.
Qed.

Lemma update_overwrites_one_row_witness :
  ∃ (s1 : State) (before after rest : list Item),
    update_item 1 (mkItemCreate "new" None) one_item
      = (Ok (mkItem 1 "new" None), s1) ∧
    (read_item 1 s1).1 = Ok (mkItem 1 "new" None) ∧
    (∀ j : Z, j ≠ 1 → (read_item j s1).1 = (read_item j one_item).1) ∧
    next_id (committed s1) = next_id (committed one_item) ∧
    (read_items one_item).1 = Ok before ∧
    (read_items s1).1 = Ok after ∧
    before ≡ₚ mkItem 1 "Test Item" (Some "This is a test") :: rest ∧
    after ≡ₚ mkItem 1 "new" None :: rest ∧
    committed (update_item 1 (mkItemCreate "new" None) s1).2 = committed s1.
Proof.
  apply (update_overwrites_one_row one_item 1 (mkItemCreate "new" None)
           (mkItemCreate "Test Item" (Some "This is a test"))).
  vm_compute. reflexivity.
Defined.

(** X9: Delete of an id that has a row removes that row and touches no
    other: Get on any other id answers as before, the sequence is not
    moved back, and List before is List afterwards plus the deleted
    Item, up to order. *)
Theorem delete_removes_one_row (s : State) (i : Z) (old : ItemCreate) :
  items (committed s) !! i = Some old →
  ∃ (s1 : State) (before after : list Item),
    (delete_item i s).2 = s1 ∧
    (∀ j : Z, j ≠ i → (read_item j s1).1 = (read_item j s).1) ∧
    next_id (committed s1) = next_id (committed s) ∧
    (read_items s).1 = Ok before ∧
    (read_items s1).1 = Ok after ∧
    before ≡ₚ row_of i old :: after.
Proof.
  intros Hold. rewrite delete_item_run. cbn zeta. rewrite Hold.
  eexists _, _, _. split; [reflexivity|]. split_and!.
  - intros j Hj. rewrite !read_item_result. unfold settled, deleted. simpl.
    by rewrite lookup_delete_ne.
  - done.
  - apply read_items_result.
  - apply read_items_result.
  - unfold settled, deleted. simpl.
    by rewrite <- (map_to_list_delete _ _ _ Hold).
Qed.

Lemma delete_removes_one_row_witness :
  ∃ (s1 : State) (before after : list Item),
    (delete_item 1 one_item).2 = s1 ∧
    (∀ j : Z, j ≠ 1 → (read_item j s1).1 = (read_item j one_item).1) ∧
    next_id (committed s1) = next_id (committed one_item) ∧
    (read_items one_item).1 = Ok before ∧
    (read_items s1).1 = Ok after ∧
    before ≡ₚ mkItem 1 "Test Item" (Some "This is a test") :: after.
Proof.
  apply (delete_removes_one_row one_item 1
           (mkItemCreate "Test Item" (Some "This is a test"))).
  vm_compute. reflexivity.
Defined.



(** ** One statement per request *)

Lemma perform_trace c s :
  ∃ rest : list event,
    trace (perform c s).2
      = trace s ++ EvAcquire :: EvExecute (stmt_of c) :: rest ∧
    (rest = [EvRelease] ∨ (is_read c = false ∧ rest = [EvCommit; EvRelease])).
Proof.
  destruct c as [|i|item|i item|i]; unfold perform.
  - rewrite read_items_run. eexists. split; [reflexivity|]. by left.
  - rewrite read_item_run. eexists. split.
    + destruct (items (committed s) !! i); reflexivity.
    + by left.
  - rewrite create_item_run. cbn zeta.
    destruct (items (committed s) !! next_id (committed s));
      (eexists; split; [reflexivity|]); [by left|by right].
  - rewrite update_item_run. cbn zeta.
    destruct (items (committed s) !! i);
      (eexists; split; [reflexivity|]); by right.
  - rewrite delete_item_run. cbn zeta.
    destruct (items (committed s) !! i);
      (eexists; split; [reflexivity|]); by right.
Qed.

Lemma count_events_app p tr1 tr2 :
  count_events p (tr1 ++ tr2)
    = (count_events p tr1 + count_events p tr2)%nat.
Proof. unfold count_events. by rewrite filter_app, length_app. Qed.

Lemma executed_app tr1 tr2 : executed (tr1 ++ tr2) = executed tr1 ++ executed tr2.
Proof. apply omap_app. Qed.

(** X11: along any sequence of calls, from any state, every call
    acquires the connection once, executes exactly its own one
    statement, and releases the connection once; the statements
    executed are those of the calls, in order, and there are at most as
    many commits as calls that write. *)
Theorem one_statement_per_call (cs : list call) (s : State) :
  ∃ tr : list event,
    trace (replay cs s).2 = trace s ++ tr ∧
    count_events is_acquire tr = length cs ∧
    count_events is_release tr = length cs ∧
    executed tr = stmt_of <$> cs ∧
    (count_events is_commit tr
       ≤ length (filter (λ c, is_read c = false) cs))%nat.
Proof.
  revert s. induction cs as [|c cs IH]; intros s.
  { exists []. simpl. rewrite app_nil_r. done. }
  cbn [replay].
  destruct (perform_trace c s) as (rest & Htr & Hrest).
  destruct (perform c s) as [o s1]. cbn [fst snd] in *.
  destruct (IH s1) as (tr & Htr' & Hacq & Hrel & Hexe & Hcom).
  destruct (replay cs s1) as [h s2]. cbn [fst snd] in *.
  exists ((EvAcquire :: EvExecute (stmt_of c) :: rest) ++ tr).
  rewrite Htr', Htr, <- app_assoc. split; [done|].
  rewrite !count_events_app, executed_app, Hacq, Hrel, Hexe.
  rewrite filter_cons.
  destruct Hrest as [->|[Hw ->]].
  - split_and!; [done..|].
    assert (count_events is_commit
              [EvAcquire; EvExecute (stmt_of c); EvRelease] = 0%nat) as ->
      by reflexivity.
    destruct (decide (is_read c = false)); simpl; lia.
  - split_and!; [done..|].
    assert (count_events is_commit
              [EvAcquire; EvExecute (stmt_of c); EvCommit; EvRelease] = 1%nat)
      as -> by reflexivity.
    rewrite decide_True by done. simpl. lia.
Qed.

(** ** Start-up *)

Lemma first_missing_None secret ks :
  first_missing secret ks = None ↔ Forall (λ k, is_Some (secret !! k)) ks.
Proof.
  unfold first_missing. induction ks as [|k ks IH]; simpl.
  - split; [constructor|done].
  - destruct (secret !! k) eqn:Hk.
    + rewrite IH. split; [intros; constructor; eauto|].
      by intros [_ ?]%Forall_cons.
    + split; [done|]. intros [[? ?] _]%Forall_cons. congruence.
Qed.

Lemma get_db_pool_secret get_secret_value environ secret :
  truthy (environ !! marker) = true →
  get_secret_value (default "us-east-1" (environ !! "AWS_REGION"))
                   (environ !! "DB_SECRET_NAME") = Some secret →
  match first_missing secret required_fields with
  | Some k => get_db_pool get_secret_value environ = inl (KeyError k)
  | None => ∃ pool, get_db_pool get_secret_value environ = inr pool
  end.
Proof.
  intros Hm Hsec. unfold get_db_pool, marker in *. rewrite Hm. cbn zeta.
  rewrite Hsec. unfold subscript, first_missing, required_fields.
  cbn [find mbind startup_bind].
  destruct (secret !! "host"); [|done]. cbn [find].
  destruct (secret !! "dbname"); [|done]. cbn [find].
  destruct (secret !! "username"); [|done]. cbn [find].
  destruct (secret !! "password"); [|done]. cbn [find].
  by eexists.
Qed.

(** X12: the pool is created exactly when the marker is unset or empty,
    or the secret is fetched and has its host, dbname, username and
    password fields.  A secret that cannot be fetched is a fatal error,
    and a fetched secret lacking one of the four fields is one too,
    reported as a KeyError on the first of them that is missing: the
    DB_ variables of the environment are no fallback. *)
Theorem startup_outcome
    (get_secret_value : string → option string → option (gmap string jvalue))
    (environ : gmap string string) :
  let fetched :=
    get_secret_value (default "us-east-1" (environ !! "AWS_REGION"))
                     (environ !! "DB_SECRET_NAME") in
  ((∃ pool, get_db_pool get_secret_value environ = inr pool) ↔
   truthy (environ !! marker) = false ∨
   ∃ secret, fetched = Some secret ∧
             Forall (λ k, is_Some (secret !! k)) required_fields) ∧
  (get_db_pool get_secret_value environ = inl SecretError ↔
   truthy (environ !! marker) = true ∧ fetched = None) ∧
  (∀ k, get_db_pool get_secret_value environ = inl (KeyError k) ↔
        truthy (environ !! marker) = true ∧
        ∃ secret, fetched = Some secret ∧
                  first_missing secret required_fields = Some k).
Proof.
  intros fetched.
  destruct (truthy (environ !! marker)) eqn:Hm.
  2:{ assert (∃ pool, get_db_pool get_secret_value environ = inr pool)
        as [pool Hpool].
      { unfold get_db_pool, marker in *. rewrite Hm. by eexists. }
      rewrite Hpool. split_and!.
      - split; [by left|by eauto].
      - split; [done|]. by intros [? _].
      - intros k. split; [done|]. by intros [? _]. }
  destruct fetched as [secret|] eqn:Hsec; subst fetched.
  2:{ assert (get_db_pool get_secret_value environ = inl SecretError)
        as Hpool.
      { unfold get_db_pool, marker in *. rewrite Hm. cbn zeta.
        by rewrite Hsec. }
      rewrite Hpool. split_and!.
      - split; [by intros [? ?]|]. intros [?|(? & ? & _)]; done.
      - done.
      - intros k. split; [done|]. by intros (_ & ? & ? & _). }
  pose proof (get_db_pool_secret get_secret_value environ secret Hm Hsec)
    as Hpool.
  destruct (first_missing secret required_fields) as [k0|] eqn:Hmiss.
  - rewrite Hpool. split_and!.
    + split; [by intros [? ?]|]. intros [?|(? & [= <-] & Hall)]; [done|].
      apply first_missing_None in Hall. congruence.
    + split; [done|]. by intros [_ ?].
    + intros k. split.
      * intros [= <-]. eauto.
      * intros (_ & ? & [= <-] & Hk). congruence.
  - destruct Hpool as [pool Hpool]. rewrite Hpool. split_and!.
    + split; [|by eauto]. intros _. right. eexists. split; [done|].
      by apply first_missing_None.
    + split; [done|]. by intros [_ ?].
    + intros k. split; [done|]. intros (_ & ? & [= <-] & Hk). congruence.
Qed.

Example decimal_int_samples :
  decimal_int <$> ["7"; "-1"; "+1"; " 1"; "1.0"; "abc"; ""; "1.5"; "-"]
    = [Some 7; Some (-1); Some 1; Some 1; Some 1; None; None; None; None].
Proof. reflexivity. Qed.
